(** * ue5osc: the [Communicator] session of [ue5osc/__init__.py]

    A shallow embedding of the OSC client that drives an Unreal Engine 5
    scene.  The session object is a record, every method is a function in a
    small state-and-outcome monad over a [World] that holds the session, the
    chronological trace of what the session did to its collaborators (the
    UDP client, the server thread, the clock, the image library) and the
    response latch of the message handler. *)

From Stdlib Require Import ZArith List String Ascii Bool Lia.
From Stdlib Require Import Floats.
Import ListNotations.

Local Open Scope string_scope.
Local Open Scope Z_scope.
Local Open Scope list_scope.

(* ================================================================== *)
(** ** Python values, exceptions and outcomes *)

(** The values that travel as OSC payloads and replies. *)
#[warnings="-register-all"]
Inductive value : Type :=
| VFloat (f : float)
| VInt (n : Z)
| VStr (s : string)
| VList (items : list value)
| VTuple (items : list value).

(** An OSC message: address and payload, as given to [send_message]. *)
Definition message : Type := string * value.

Inductive exn : Type :=
| ValueError
| TypeError
| OSError.

(** What a call does: it returns, it raises, or it blocks for ever (a wait
    on the latch that nothing will release; the source has no timeout). *)
Inductive outcome (A : Type) : Type :=
| Val (a : A)
| Raise (e : exn)
| Hang.

Arguments Val {A} a.
Arguments Raise {A} e.
Arguments Hang {A}.

(* ================================================================== *)
(** ** Text: [str.split], decimal rendering and the [:06] format *)

(** [s.split(sep)] for a one-character separator. *)
Fixpoint split (sep : ascii) (s : string) : list string :=
  match s with
  | EmptyString => [EmptyString]
  | String c rest =>
      if Ascii.eqb c sep then EmptyString :: split sep rest
      else match split sep rest with
           | [] => [String c EmptyString]
           | h :: t => String c h :: t
           end
  end.

(** [sep.join(parts)]. *)
Fixpoint join (sep : string) (parts : list string) : string :=
  match parts with
  | [] => EmptyString
  | [p] => p
  | p :: rest => (p ++ sep ++ join sep rest)%string
  end.

(** [s.lstrip(c)]. *)
Fixpoint lstrip (c : ascii) (s : string) : string :=
  match s with
  | String a rest => if Ascii.eqb a c then lstrip c rest else s
  | EmptyString => EmptyString
  end.

(** The character of a decimal digit [0..9]. *)
Definition digit_char (d : Z) : ascii := ascii_of_nat (48 + Z.to_nat d).

(** The decimal digits of a non-negative integer, least significant first.
    The fuel bounds the number of digits. *)
Fixpoint digits_le (fuel : nat) (n : Z) : list Z :=
  match fuel with
  | O => []
  | S k => (n mod 10) :: (if n / 10 =? 0 then [] else digits_le k (n / 10))
  end.

Definition digits_fuel (n : Z) : nat := S (Z.to_nat (Z.log2 n)).

Fixpoint string_of_digits (ds : list Z) : string :=
  match ds with
  | [] => EmptyString
  | d :: rest => String (digit_char d) (string_of_digits rest)
  end.

(** [str(n)] for [n >= 0]. *)
Definition str_nonneg (n : Z) : string :=
  string_of_digits (rev (digits_le (digits_fuel n) n)).

Fixpoint zeros (k : nat) : string :=
  match k with
  | O => EmptyString
  | S k' => String "0"%char (zeros k')
  end.

(** [s.rjust(width, "0")]: pad on the left up to [width], never truncate. *)
Definition zfill (width : nat) (s : string) : string :=
  (zeros (width - String.length s) ++ s)%string.

(** [f"{n:06}"] on an [int]: zero fill, minimum width 6, the sign (when
    there is one) counted in the width and put before the zeros. *)
Definition format_06 (n : Z) : string :=
  if n <? 0 then String "-"%char (zfill 5 (str_nonneg (- n)))
  else zfill 6 (str_nonneg n).

(** The value of a decimal digit character. *)
Definition digit_val (c : ascii) : option Z :=
  let k := Z.of_nat (nat_of_ascii c) in
  if (48 <=? k) && (k <=? 57) then Some (k - 48) else None.

(** Reading a non-empty run of decimal digits back, most significant
    first, as [int(s)] does (leading zeros allowed). *)
Fixpoint int_of_digits (acc : Z) (s : string) : option Z :=
  match s with
  | EmptyString => Some acc
  | String c rest =>
      match digit_val c with
      | Some d => int_of_digits (10 * acc + d) rest
      | None => None
      end
  end.

Definition int_of_string (s : string) : option Z :=
  match s with
  | EmptyString => None
  | _ => int_of_digits 0 s
  end.

(** The text after the last occurrence of [sep] (the whole text when there
    is none), and whether a separator was seen: [s.rpartition(sep)]. *)
Fixpoint rpartition (sep : ascii) (s : string) : option string * string :=
  match s with
  | EmptyString => (None, EmptyString)
  | String c rest =>
      match rpartition sep rest with
      | (Some h, t) => (Some (String c h), t)
      | (None, t) =>
          if Ascii.eqb c sep then (Some EmptyString, t)
          else (None, String c t)
      end
  end.

(** Whether the character occurs in the text: [c in s]. *)
Fixpoint contains (c : ascii) (s : string) : bool :=
  match s with
  | EmptyString => false
  | String a rest => Ascii.eqb a c || contains c rest
  end.

(** The number written by a run of decimal digits, least significant
    first. *)
Fixpoint value_le (ds : list Z) : Z :=
  match ds with
  | [] => 0
  | d :: rest => 10 * value_le rest + d
  end.

(* ================================================================== *)
(** ** pathlib *)

(** The three things the session asks of [pathlib.Path]: construction from
    a string, [str(p)] (which is also what an f-string renders) and the
    [/] operator with a string on the right.  [Path] is [PosixPath] or
    [WindowsPath] according to the host, hence the interface. *)
Class Pathlib : Type := {
  Path : Type;
  Path_new : string -> Path;
  Path_str : Path -> string;
  Path_truediv : Path -> string -> Path
}.

(** The POSIX flavour: a root ([""], ["/"] or ["//"]) and the components. *)
Module PurePosixPath.

Record t : Type := mk { root : string; parts : list string }.

Definition is_part (x : string) : bool :=
  negb (String.eqb x "") && negb (String.eqb x ".").

(** [splitroot]: exactly two leading slashes are kept, any other number
    of them is one. *)
Definition splitroot (part : string) : string * string :=
  match part with
  | String "/"%char _ =>
      let stripped := lstrip "/"%char part in
      if Nat.eqb (String.length part - String.length stripped) 2
      then ("//", stripped) else ("/", stripped)
  | _ => ("", part)
  end.

Definition parse (s : string) : t :=
  let (r, rel) := splitroot s in
  mk r (filter is_part (split "/"%char rel)).

Definition str (p : t) : string :=
  match (root p ++ join "/" (parts p))%string with
  | EmptyString => "."
  | s => s
  end.

(** [p / name]: a rooted right operand replaces the path. *)
Definition truediv (p : t) (name : string) : t :=
  let q := parse name in
  match root q with
  | EmptyString => mk (root p) (parts p ++ parts q)
  | _ => q
  end.

(** A path is well formed when its root is one of the three roots and its
    components are real components, without a separator in them. *)
Definition well_formed (p : t) : Prop :=
  (root p = "" \/ root p = "/" \/ root p = "//") /\
  Forall (fun x => is_part x = true /\ contains "/"%char x = false) (parts p).

(** A bare root: ["/"] or ["//"] with no component. *)
Definition is_bare_root (p : t) : bool :=
  negb (String.eqb (root p) "") &&
  match parts p with
  | [] => true
  | _ => false
  end.

End PurePosixPath.

#[export] Instance posix : Pathlib := {
  Path := PurePosixPath.t;
  Path_new := PurePosixPath.parse;
  Path_str := PurePosixPath.str;
  Path_truediv := PurePosixPath.truediv
}.

(* ================================================================== *)
(** ** The remote engine and the host *)

(** What lies outside the session: the engine at the other end of the two
    UDP ports and the image files it writes.  The engine is deterministic
    and reactive: [engine_reply history m] lists the replies that reach the
    local port when [m] is sent after the messages of [history] (oldest
    first); [Image_open history p] is what [PIL.Image.open(p)] finds once
    the engine has received [history] ([None]: no readable image there). *)
Class Remote `{Pathlib} : Type := {
  Image : Type;
  engine_reply : list message -> message -> list value;
  Image_open : list message -> Path -> option Image
}.

(** Modelled from the spec: the response latch held by
    [ue5osc.osc_dispatcher.OSCMessageReceiver], a module that is not among
    the sources.  A single slot: [release] buffers the value until the next
    await (a second release before it overwrites), [await_value] returns the
    buffered value and clears the slot, and blocks while the slot is empty. *)
Definition latch_release (slot : option value) (v : value) : option value :=
  Some v.

Definition latch_await (slot : option value) : outcome value * option value :=
  match slot with
  | Some v => (Val v, None)
  | None => (Hang, None)
  end.

Section Session.

Context `{R : Remote}.

(** What the session does to its collaborators, in the order it does it. *)
Inductive event : Type :=
| Send (address : string) (payload : value)
| Sleep (seconds : float)
| Opened (file : Path)
| Imshow (img : Image)
| ServerBind (host : string) (port : Z)
| ClientConnect (host : string) (port : Z)
| ThreadStart
| ServerShutdown
| ThreadJoin.

(** The message handler of a session: the one [OSCMessageReceiver] that
    the constructor creates.  Its state, the latch, is kept in the world. *)
Inductive handler : Type :=
| OSCMessageReceiver.

(** The attributes of a [Communicator].  The server, the client and the
    thread are objects; each is represented by the address it was made
    for, and is absent until [init_osc] has assigned it.  [file_path]
    exists only once [request_image] has run. *)
Record Communicator : Type := mkCommunicator {
  path : Path;
  img_number : Z;
  ip : string;
  client_port : Z;
  server_port : Z;
  message_handler : handler;
  server : option (string * Z);
  client : option (string * Z);
  server_thread : option (string * Z);
  file_path : option Path
}.

(** Assignments to one attribute. *)
Definition set_img_number (c : Communicator) (n : Z) : Communicator :=
  mkCommunicator (path c) n (ip c) (client_port c) (server_port c)
    (message_handler c) (server c) (client c) (server_thread c) (file_path c).

Definition set_server (c : Communicator) (s : string * Z) : Communicator :=
  mkCommunicator (path c) (img_number c) (ip c) (client_port c)
    (server_port c) (message_handler c) (Some s) (client c)
    (server_thread c) (file_path c).

Definition set_client (c : Communicator) (s : string * Z) : Communicator :=
  mkCommunicator (path c) (img_number c) (ip c) (client_port c)
    (server_port c) (message_handler c) (server c) (Some s)
    (server_thread c) (file_path c).

Definition set_server_thread (c : Communicator) (s : string * Z)
    : Communicator :=
  mkCommunicator (path c) (img_number c) (ip c) (client_port c)
    (server_port c) (message_handler c) (server c) (client c) (Some s)
    (file_path c).

Definition set_file_path (c : Communicator) (p : Path) : Communicator :=
  mkCommunicator (path c) (img_number c) (ip c) (client_port c)
    (server_port c) (message_handler c) (server c) (client c)
    (server_thread c) (Some p).

Record World : Type := mkWorld {
  self : Communicator;
  trace : list event;
  latch : option value
}.

(** The messages sent so far, oldest first. *)
Fixpoint sent (tr : list event) : list message :=
  match tr with
  | [] => []
  | Send a v :: rest => (a, v) :: sent rest
  | _ :: rest => sent rest
  end.

(** *** The monad of methods *)

Definition M (A : Type) : Type := World -> outcome A * World.

Definition ret {A} (a : A) : M A := fun w => (Val a, w).

Definition bind {A B} (m : M A) (k : A -> M B) : M B :=
  fun w =>
    match m w with
    | (Val a, w') => k a w'
    | (Raise e, w') => (Raise e, w')
    | (Hang, w') => (Hang, w')
    end.

(** A step that does not touch the world. *)
Definition lift {A} (o : outcome A) : M A := fun w => (o, w).

Definition raise {A} (e : exn) : M A := lift (Raise e).

Notation "x <- m ;; k" := (bind m (fun x => k))
  (at level 61, m at next level, right associativity).
Notation "m ;; k" := (bind m (fun _ => k))
  (at level 61, right associativity).

Definition emit (e : event) : M unit :=
  fun w => (Val tt, mkWorld (self w) (trace w ++ [e]) (latch w)).

Definition get_self : M Communicator := fun w => (Val (self w), w).

Definition get_trace : M (list event) := fun w => (Val (trace w), w).

Definition set_self (c : Communicator) : M unit :=
  fun w => (Val tt, mkWorld c (trace w) (latch w)).

(** *** The collaborators *)

(** [self.client.send_message(address, payload)]: one datagram leaves; the
    replies of the engine are decoded on the server thread and released
    into the latch.  Two things are taken for granted here: that the
    client can encode the payload (python-osc packs a float in 32 bits and
    raises [OverflowError], sending nothing, for a finite float beyond
    that range, see [packs_float32]), and that the replies have arrived by
    the time the caller next looks at the latch. *)
Definition send_message (address : string) (payload : value) : M unit :=
  fun w =>
    let replies := engine_reply (sent (trace w)) (address, payload) in
    (Val tt,
     mkWorld (self w) (trace w ++ [Send address payload])
             (fold_left latch_release replies (latch w))).

(** [self.message_handler.wait_for_response()]. *)
Definition wait_for_response : M value :=
  fun w =>
    let (r, slot) := latch_await (latch w) in
    (r, mkWorld (self w) (trace w) slot).

Definition sleep (seconds : float) : M unit := emit (Sleep seconds).

(** [Image.open(p)]: [OSError] (of which [FileNotFoundError] and
    [UnidentifiedImageError] are kinds) when there is no readable image. *)
Definition Image_open_ (p : Path) : M Image :=
  fun w =>
    let w' := mkWorld (self w) (trace w ++ [Opened p]) (latch w) in
    match Image_open (sent (trace w)) p with
    | Some img => (Val img, w')
    | None => (Raise OSError, w')
    end.

(** A text is held as its UTF-8 bytes; Python iterates it code point by
    code point.  A byte [10xxxxxx] continues the code point begun before
    it. *)
Definition is_continuation (c : ascii) : bool :=
  match c with
  | Ascii _ _ _ _ _ _ b6 b7 => b7 && negb b6
  end.

Definition continued (s : string) : bool :=
  match s with
  | String d _ => is_continuation d
  | EmptyString => false
  end.

Fixpoint code_points (s : string) : list string :=
  match s with
  | EmptyString => []
  | String c rest =>
      if continued rest then
        match code_points rest with
        | p :: ps => String c p :: ps
        | [] => [String c EmptyString]
        end
      else String c EmptyString :: code_points rest
  end.

(** [a, b, c = v]: unpacking into exactly three targets.  A text is
    iterated character by character; a number is not iterable. *)
Definition chars (s : string) : list value := map VStr (code_points s).

Definition unpack3 (v : value) : outcome (value * value * value) :=
  match v with
  | VFloat _ | VInt _ => Raise TypeError
  | VList items | VTuple items =>
      match items with
      | [a; b; c] => Val (a, b, c)
      | _ => Raise ValueError
      end
  | VStr s =>
      match chars s with
      | [a; b; c] => Val (a, b, c)
      | _ => Raise ValueError
      end
  end.

(** *** The methods of [Communicator], in the order of the source *)

(** Whether a server of the session already holds the address: no method
    closes a socket, so a server socket once bound stays bound. *)
Fixpoint bound (tr : list event) (host : string) (port : Z) : bool :=
  match tr with
  | [] => false
  | ServerBind h p :: rest =>
      (String.eqb h host && (p =? port)) || bound rest host port
  | _ :: rest => bound rest host port
  end.

(** The server binds its socket when it is constructed, which fails with
    [OSError] (address already in use) before anything is assigned when
    the session holds the address already. *)
Definition init_osc : M unit :=
  c <- get_self ;;
  tr <- get_trace ;;
  if bound tr (ip c) (server_port c) then raise OSError
  else
    emit (ServerBind (ip c) (server_port c)) ;;
    set_self (set_server c (ip c, server_port c)) ;;
    c <- get_self ;;
    emit (ClientConnect (ip c) (client_port c)) ;;
    set_self (set_client c (ip c, client_port c)) ;;
    c <- get_self ;;
    set_self (set_server_thread c (ip c, server_port c)) ;;
    emit ThreadStart.

(** [Communicator(ip, client_port, server_port, directory)]: the world
    just after the constructor returned. *)
Definition __init__ (ip_ : string) (client_port_ server_port_ : Z)
    (directory : string) : World :=
  let c := mkCommunicator (Path_new directory) 0 ip_ client_port_
                          server_port_ OSCMessageReceiver None None None None in
  snd (init_osc (mkWorld c [] None)).

Definition __enter__ : M Communicator := get_self.

Definition close_osc : M unit :=
  emit ServerShutdown ;;
  emit ThreadJoin.

(** The three arguments describe the exception that left the scope, if
    any; the method does not look at them. *)
Definition __exit__ (exc : option exn) : M unit := close_osc.

Definition send_and_wait (osc_address : string) : M value :=
  let dummy_data := 0%float in
  send_message osc_address (VFloat dummy_data) ;;
  wait_for_response.

Definition get_project_name : M value := send_and_wait "/get/project".

Definition get_player_location : M value := send_and_wait "/get/location".

Definition set_player_location (x y z : float) : M unit :=
  send_message "/set/location" (VList [VFloat x; VFloat y; VFloat z]).

Definition get_player_rotation : M value := send_and_wait "/get/rotation".

Definition set_player_yaw (yaw : float) : M unit :=
  r <- get_player_rotation ;;
  t <- lift (unpack3 r) ;;
  let '(ue_roll, ue_pitch, _) := t in
  send_message "/set/rotation" (VList [ue_pitch; ue_roll; VFloat yaw]).

(** [float(x)] of a [float] is that float; the arguments have the types
    the source annotates them with. *)
Definition float_ (x : float) : float := x.

Definition move_forward (amount : float) : M unit :=
  send_message "/move/forward" (VFloat (float_ amount)).

Definition turn_left (degree : float) : M unit :=
  send_message "/turn/left" (VFloat (float_ degree)).

Definition turn_right (degree : float) : M unit :=
  send_message "/turn/right" (VFloat (float_ degree)).

Definition move_backward (amount : float) : M unit :=
  send_message "/move/forward" (VFloat (float_ (- amount)%float)).

Definition save_image : M unit :=
  c <- get_self ;;
  set_self (set_img_number c (img_number c + 1)) ;;
  c <- get_self ;;
  send_message "/save/image"
    (VStr (Path_str (path c) ++ "/" ++ format_06 (img_number c))%string) ;;
  sleep 1.5%float.

Definition request_image : M Image :=
  c <- get_self ;;
  set_self (set_file_path c
              (Path_truediv (path c) (format_06 (img_number c)))) ;;
  Image_open_ (Path_truediv (path c) (format_06 (img_number c))).

Definition show : M unit :=
  img <- request_image ;;
  emit (Imshow img).

Definition take_screenshot (filename : string) : M unit :=
  send_message "/screenshot" (VStr filename).

Definition reset_to_start : M unit :=
  send_message "/reset" (VFloat 0%float) ;;
  sleep 1%float.

(** *** Calls from outside *)

(** The public operations of a session. *)
Inductive op : Type :=
| Enter
| Exit (exc : option exn)
| InitOsc
| CloseOsc
| SendAndWait (osc_address : string)
| GetProjectName
| GetPlayerLocation
| SetPlayerLocation (x y z : float)
| GetPlayerRotation
| SetPlayerYaw (yaw : float)
| MoveForward (amount : float)
| TurnLeft (degree : float)
| TurnRight (degree : float)
| MoveBackward (amount : float)
| SaveImage
| RequestImage
| Show
| TakeScreenshot (filename : string)
| ResetToStart.

(** What a call hands back to the caller. *)
Inductive result : Type :=
| RNone
| RSelf (c : Communicator)
| RValue (v : value)
| RImage (img : Image).

Definition returning {A} (f : A -> result) (m : M A) : M result :=
  a <- m ;; ret (f a).

Definition call (o : op) : M result :=
  match o with
  | Enter => returning RSelf __enter__
  | Exit exc => returning (fun _ => RNone) (__exit__ exc)
  | InitOsc => returning (fun _ => RNone) init_osc
  | CloseOsc => returning (fun _ => RNone) close_osc
  | SendAndWait a => returning RValue (send_and_wait a)
  | GetProjectName => returning RValue get_project_name
  | GetPlayerLocation => returning RValue get_player_location
  | SetPlayerLocation x y z =>
      returning (fun _ => RNone) (set_player_location x y z)
  | GetPlayerRotation => returning RValue get_player_rotation
  | SetPlayerYaw yaw => returning (fun _ => RNone) (set_player_yaw yaw)
  | MoveForward amount => returning (fun _ => RNone) (move_forward amount)
  | TurnLeft degree => returning (fun _ => RNone) (turn_left degree)
  | TurnRight degree => returning (fun _ => RNone) (turn_right degree)
  | MoveBackward amount => returning (fun _ => RNone) (move_backward amount)
  | SaveImage => returning (fun _ => RNone) save_image
  | RequestImage => returning RImage request_image
  | Show => returning (fun _ => RNone) show
  | TakeScreenshot filename =>
      returning (fun _ => RNone) (take_screenshot filename)
  | ResetToStart => returning (fun _ => RNone) reset_to_start
  end.

(** A caller that makes the calls of [ops] one after the other, going on
    after an exception (it may catch it) and stopping for good at a call
    that blocks. *)
Fixpoint run (ops : list op) (w : World) : World :=
  match ops with
  | [] => w
  | o :: rest =>
      match call o w with
      | (Hang, w') => w'
      | (_, w') => run rest w'
      end
  end.

(** The events a computation adds to the trace. *)
Definition emitted {A} (m : M A) (w : World) : list event :=
  skipn (List.length (trace w)) (trace (snd (m w))).

(** The endpoint configuration of a session. *)
Definition config (c : Communicator) : string * Z * Z * Path :=
  (ip c, client_port c, server_port c, path c).

Definition is_save (o : op) : bool :=
  match o with
  | SaveImage => true
  | _ => false
  end.

(** What the latch holds once a request to [address] has gone out from
    [w]: the replies of the engine released over what was there. *)
Definition delivered (w : World) (address : string) : option value :=
  fold_left latch_release
    (engine_reply (sent (trace w)) (address, VFloat 0%float)) (latch w).

(** The address of the three request/reply operations. *)
Definition request_address (o : op) : option string :=
  match o with
  | GetProjectName => Some "/get/project"
  | GetPlayerLocation => Some "/get/location"
  | GetPlayerRotation => Some "/get/rotation"
  | _ => None
  end.

(** The sequence name in a [/save/image] message: what follows the last
    forward slash of its payload. *)
Definition save_name (e : event) : option string :=
  match e with
  | Send a (VStr s) =>
      if String.eqb a "/save/image" then Some (snd (rpartition "/"%char s))
      else None
  | _ => None
  end.

(** What the [n]-th of [n] calls of [save_image] in a row does, counting
    from 1 and starting in [w0]. *)
Definition nth_save_image (w0 : World) (n : nat) : list event :=
  emitted save_image (run (repeat SaveImage (pred n)) w0).


(** The file names given to the engine: the text payloads of the
    [/save/image] messages of a trace, oldest first. *)
Fixpoint save_payloads (tr : list event) : list string :=
  match tr with
  | [] => []
  | Send a (VStr s) :: rest =>
      if String.eqb a "/save/image" then s :: save_payloads rest
      else save_payloads rest
  | _ :: rest => save_payloads rest
  end.

(** The shape of the payload that goes with each address the methods
    write out (the first two items of a rotation are whatever the engine
    reported). *)
Definition is_float (v : value) : bool :=
  match v with
  | VFloat _ => true
  | _ => false
  end.

Definition is_dummy (v : value) : bool :=
  match v with
  | VFloat f => PrimFloat.eqb f 0%float
  | _ => false
  end.

Definition wire_shape (m : message) : bool :=
  let (a, v) := m in
  if existsb (String.eqb a)
       ["/get/project"; "/get/location"; "/get/rotation"; "/reset"]
  then is_dummy v
  else if existsb (String.eqb a) ["/move/forward"; "/turn/left"; "/turn/right"]
  then is_float v
  else if existsb (String.eqb a) ["/save/image"; "/screenshot"]
  then match v with VStr _ => true | _ => false end
  else if String.eqb a "/set/location"
  then match v with
       | VList [x; y; z] => is_float x && is_float y && is_float z
       | _ => false
       end
  else if String.eqb a "/set/rotation"
  then match v with
       | VList [_; _; yaw] => is_float yaw
       | _ => false
       end
  else false.

Definition event_shape (e : event) : bool :=
  match e with
  | Send a v => wire_shape (a, v)
  | _ => true
  end.

Definition is_send_and_wait (o : op) : bool :=
  match o with
  | SendAndWait _ => true
  | _ => false
  end.

(** The operations that assign an attribute of the session. *)
Definition mutates (o : op) : bool :=
  match o with
  | InitOsc | SaveImage | RequestImage | Show => true
  | _ => false
  end.

(** Whether [struct.pack(">f", x)], with which the client encodes a float
    argument, succeeds: a finite double must round to a finite 32-bit
    float, that is, lie below [2^128 - 2^103] in magnitude. *)
Definition packs_float32 (x : float) : bool :=
  PrimFloat.is_nan x || PrimFloat.is_infinity x
  || (PrimFloat.abs x <? 0x1.ffffffp+127)%float.

(** The sockets the session has opened: the server's and the client's.
    No method closes one ([server_close()] is never called, nor is the
    client's socket closed), so they stay open while the session lives. *)
Fixpoint open_sockets (tr : list event) : list (string * Z) :=
  match tr with
  | [] => []
  | ServerBind h p :: rest => (h, p) :: open_sockets rest
  | ClientConnect h p :: rest => (h, p) :: open_sockets rest
  | _ :: rest => open_sockets rest
  end.

(** Whether the receive loop, and with it the background thread that runs
    it, is running at the end of a trace: [serve_forever] runs from the
    start of the thread until [shutdown()] has returned. *)
Definition serving (tr : list event) : bool :=
  fold_left
    (fun on e =>
       match e with
       | ThreadStart => true
       | ServerShutdown => false
       | _ => on
       end)
    tr false.

(** The file name that goes with the sequence number [k] in the session
    directory, as [save_image] writes it. *)
Definition image_name (c : Communicator) (k : nat) : string :=
  (Path_str (path c) ++ "/" ++ format_06 (Z.of_nat k))%string.

(** A world whose counter is [n >= 0] and whose trace names the files
    [1 .. n] of the session directory, once each and in order. *)
Definition numbered (w : World) : Prop :=
  0 <= img_number (self w) /\
  save_payloads (trace w)
  = map (image_name (self w)) (seq 1 (Z.to_nat (img_number (self w)))).

End Session.

(* ================================================================== *)
(** ** Test doubles for the engine *)

(** The payload of the last [/set/location] message of a history. *)
Definition last_location (h : list message) : option value :=
  fold_left
    (fun acc m => if String.eqb (fst m) "/set/location" then Some (snd m)
                  else acc)
    h None.

(** An engine echoes locations when it answers a location request with the
    location it was last sent. *)
Definition echoes `{R : Remote} : Prop :=
  forall h v, last_location h = Some v ->
              engine_reply h ("/get/location", VFloat 0%float) = [v].

(** The file named by the last [/save/image] message that designates
    [file], if any. *)
Definition saved (h : list message) (file : PurePosixPath.t) : option string :=
  fold_left
    (fun acc m =>
       match m with
       | (a, VStr s) =>
           if String.eqb a "/save/image"
              && String.eqb (PurePosixPath.str (PurePosixPath.parse s))
                            (PurePosixPath.str file)
           then Some s else acc
       | _ => acc
       end)
    h None.

(** A stub engine on a POSIX host: it echoes locations, answers a rotation
    request with [rotation], a project request with [project], and writes
    an image (here: the name it was given) for each [/save/image]. *)
Definition stub_reply (project rotation : value) (h : list message)
    (m : message) : list value :=
  if String.eqb (fst m) "/get/location" then
    match last_location h with
    | Some v => [v]
    | None => []
    end
  else if String.eqb (fst m) "/get/rotation" then [rotation]
  else if String.eqb (fst m) "/get/project" then [project]
  else [].

Definition stub (project rotation : value) : @Remote posix := {|
  Image := string;
  engine_reply := stub_reply project rotation;
  Image_open := saved
|}.

(** An engine that never answers and has written nothing. *)
Definition silent : @Remote posix := {|
  Image := string;
  engine_reply := fun _ _ => [];
  Image_open := fun _ _ => None
|}.

(** A session on a POSIX host against the stub engine, the way a test sets
    one up: the engine reports the rotation [(10.0, 20.0, 30.0)]. *)
Definition demo_engine : @Remote posix :=
  stub (VStr "Maze") (VTuple [VFloat 10%float; VFloat 20%float; VFloat 30%float]).

Definition demo : @World posix demo_engine :=
  @__init__ posix demo_engine "127.0.0.1" 7447 7001 "imgs".

(** A session whose engine reports a rotation of two items only. *)
Definition demo_short : @World posix
    (stub (VStr "Maze") (VTuple [VFloat 10%float; VFloat 20%float])) :=
  __init__ "127.0.0.1" 7447 7001 "imgs".

(** The same session against an engine that never answers. *)
Definition demo_silent : @World posix silent :=
  @__init__ posix silent "127.0.0.1" 7447 7001 "imgs".

(* ================================================================== *)
(** ** Facts about text *)

Lemma length_append (s t : string) :
  String.length (s ++ t)%string = (String.length s + String.length t)%nat.
Proof.
  induction s as [|c s IH]; simpl; [reflexivity | now rewrite IH].
Qed.

Lemma length_zeros (k : nat) : String.length (zeros k) = k.
Proof.
  induction k as [|k IH]; simpl; [reflexivity | now rewrite IH].
Qed.

Lemma length_zfill (width : nat) (s : string) :
  String.length (zfill width s) = Nat.max width (String.length s).
Proof.
  unfold zfill. rewrite length_append, length_zeros. lia.
Qed.

Lemma length_string_of_digits (ds : list Z) :
  String.length (string_of_digits ds) = List.length ds.
Proof.
  induction ds as [|d ds IH]; simpl; [reflexivity | now rewrite IH].
Qed.

(** The digits produced are decimal digits. *)
Lemma digits_le_range (fuel : nat) :
  forall n, Forall (fun d => 0 <= d <= 9) (digits_le fuel n).
Proof.
  induction fuel as [|k IH]; intros n; simpl; constructor.
  - pose proof (Z.mod_pos_bound n 10). lia.
  - destruct (n / 10 =? 0); [constructor | apply IH].
Qed.

Lemma value_digits_le (fuel : nat) :
  forall n, 0 <= n < 2 ^ Z.of_nat fuel -> value_le (digits_le fuel n) = n.
Proof.
  induction fuel as [|k IH]; intros n Hn.
  - simpl in Hn. simpl. lia.
  - cbn [digits_le value_le].
    pose proof (Z.div_mod n 10 ltac:(lia)) as Hdm.
    destruct (Z.eqb_spec (n / 10) 0) as [E|E].
    + simpl. lia.
    + rewrite IH; [lia|].
      rewrite Nat2Z.inj_succ, Z.pow_succ_r in Hn by lia.
      split; [apply Z.div_pos; lia|].
      apply Z.div_lt_upper_bound; lia.
Qed.

Lemma digits_fuel_enough (n : Z) : 0 <= n -> n < 2 ^ Z.of_nat (digits_fuel n).
Proof.
  intros Hn. unfold digits_fuel.
  rewrite Nat2Z.inj_succ, Z2Nat.id by apply Z.log2_nonneg.
  destruct (Z.eq_dec n 0) as [->|Hz]; [reflexivity|].
  apply Z.log2_spec. lia.
Qed.

(** With [k >= 1] digits one writes exactly the numbers below [10^k]. *)
Lemma length_digits_le_upper (fuel : nat) :
  forall n k, 0 <= n < 10 ^ Z.of_nat (S k) ->
              (List.length (digits_le fuel n) <= S k)%nat.
Proof.
  induction fuel as [|f IH]; intros n k Hn; simpl; [lia|].
  destruct (Z.eqb_spec (n / 10) 0) as [E|E]; simpl; [lia|].
  destruct k as [|k].
  - exfalso. apply E. apply Z.div_small. simpl in Hn. lia.
  - apply le_n_S, IH.
    rewrite Nat2Z.inj_succ, Z.pow_succ_r in Hn by lia.
    split; [apply Z.div_pos; lia|].
    apply Z.div_lt_upper_bound; lia.
Qed.

Lemma length_digits_le_lower (fuel : nat) :
  forall n k, 0 <= n < 2 ^ Z.of_nat fuel -> 10 ^ Z.of_nat k <= n ->
              (k < List.length (digits_le fuel n))%nat.
Proof.
  induction fuel as [|f IH]; intros n k Hn Hk.
  - simpl in Hn. assert (0 < 10 ^ Z.of_nat k) by (apply Z.pow_pos_nonneg; lia). lia.
  - simpl. destruct k as [|k]; [lia|].
    rewrite Nat2Z.inj_succ, Z.pow_succ_r in Hk by lia.
    rewrite Nat2Z.inj_succ, Z.pow_succ_r in Hn by lia.
    assert (0 < 10 ^ Z.of_nat k) by (apply Z.pow_pos_nonneg; lia).
    assert (10 ^ Z.of_nat k <= n / 10) by (apply Z.div_le_lower_bound; lia).
    destruct (Z.eqb_spec (n / 10) 0) as [E|E]; [lia|].
    simpl. apply -> Nat.succ_lt_mono. apply IH; [|assumption].
    split; [lia|]. apply Z.div_lt_upper_bound; lia.
Qed.

Lemma length_str_nonneg (n : Z) :
  String.length (str_nonneg n) = List.length (digits_le (digits_fuel n) n).
Proof.
  unfold str_nonneg. now rewrite length_string_of_digits, length_rev.
Qed.

(** The [:06] rendering of a sequence number has six characters exactly up
    to 999999. *)
Lemma length_format_06 (n : Z) :
  0 <= n -> (String.length (format_06 n) = 6%nat <-> n <= 999999).
Proof.
  intros Hn. unfold format_06.
  destruct (Z.ltb_spec n 0) as [?|_]; [lia|].
  rewrite length_zfill, length_str_nonneg.
  pose proof (digits_fuel_enough n Hn) as Hf.
  split; intros H.
  - destruct (Z_le_gt_dec n 999999) as [?|Hgt]; [assumption|].
    pose proof (length_digits_le_lower (digits_fuel n) n 6 (conj Hn Hf)
                  ltac:(change (10 ^ Z.of_nat 6) with 1000000; lia)).
    lia.
  - pose proof (length_digits_le_upper (digits_fuel n) n 5
                  ltac:(change (10 ^ Z.of_nat 6) with 1000000; lia)).
    lia.
Qed.

Lemma digit_val_char (d : Z) : 0 <= d <= 9 -> digit_val (digit_char d) = Some d.
Proof.
  intros H.
  assert (d = 0 \/ d = 1 \/ d = 2 \/ d = 3 \/ d = 4 \/ d = 5 \/ d = 6 \/
          d = 7 \/ d = 8 \/ d = 9) as Hd by lia.
  repeat (destruct Hd as [->|Hd]; [vm_compute; reflexivity|]).
  subst d. vm_compute. reflexivity.
Qed.

Lemma int_of_digits_string (ds : list Z) :
  Forall (fun d => 0 <= d <= 9) ds ->
  forall acc, int_of_digits acc (string_of_digits ds)
              = Some (fold_left (fun a d => 10 * a + d) ds acc).
Proof.
  induction 1 as [|d ds Hd _ IH]; intros acc;
    cbn [int_of_digits string_of_digits fold_left]; [reflexivity|].
  now rewrite digit_val_char, IH.
Qed.

Lemma int_of_digits_zeros (k : nat) (s : string) :
  int_of_digits 0 (zeros k ++ s)%string = int_of_digits 0 s.
Proof.
  induction k as [|k IH]; simpl; [reflexivity | exact IH].
Qed.

Lemma int_of_digits_str_nonneg (n : Z) :
  0 <= n -> int_of_digits 0 (str_nonneg n) = Some n.
Proof.
  intros Hn. unfold str_nonneg.
  rewrite int_of_digits_string
    by (apply Forall_rev, digits_le_range).
  f_equal.
  assert (forall l, fold_left (fun a d => 10 * a + d) (rev l) 0 = value_le l)
    as Hv.
  { induction l as [|d l IH]; [reflexivity|].
    cbn [rev value_le]. rewrite fold_left_app, IH. reflexivity. }
  rewrite Hv. apply value_digits_le.
  split; [assumption | now apply digits_fuel_enough].
Qed.

(** Reading the [:06] rendering of a sequence number gives the number. *)
Lemma int_of_string_format_06 (n : Z) :
  0 <= n -> int_of_string (format_06 n) = Some n.
Proof.
  intros Hn. unfold format_06.
  destruct (Z.ltb_spec n 0) as [?|_]; [lia|].
  assert (int_of_digits 0 (zfill 6 (str_nonneg n)) = Some n) as H.
  { unfold zfill. rewrite int_of_digits_zeros.
    now apply int_of_digits_str_nonneg. }
  unfold int_of_string.
  destruct (zfill 6 (str_nonneg n)) eqn:E; [|exact H].
  apply (f_equal String.length) in E. rewrite length_zfill in E.
  change (String.length "") with 0%nat in E. lia.
Qed.

(* ================================================================== *)
(** ** Facts about splitting at the last separator *)

Lemma contains_append (c : ascii) (s t : string) :
  contains c (s ++ t)%string = contains c s || contains c t.
Proof.
  induction s as [|a s IH]; simpl; [reflexivity|].
  now rewrite IH, orb_assoc.
Qed.

Lemma rpartition_absent (sep : ascii) (s : string) :
  contains sep s = false -> rpartition sep s = (None, s).
Proof.
  induction s as [|a s IH]; simpl; [reflexivity|].
  intros H. apply orb_false_iff in H as [Ha Hs].
  now rewrite (IH Hs), Ha.
Qed.

Lemma rpartition_last (sep : ascii) (s t : string) :
  contains sep t = false ->
  rpartition sep (s ++ String sep t)%string = (Some s, t).
Proof.
  intros Ht. induction s as [|a s IH]; simpl.
  - now rewrite (rpartition_absent _ _ Ht), Ascii.eqb_refl.
  - now rewrite IH.
Qed.

Lemma contains_zeros (k : nat) : contains "/"%char (zeros k) = false.
Proof.
  induction k as [|k IH]; simpl; [reflexivity | exact IH].
Qed.

Lemma contains_digits (ds : list Z) :
  Forall (fun d => 0 <= d <= 9) ds ->
  contains "/"%char (string_of_digits ds) = false.
Proof.
  induction 1 as [|d ds Hd _ IH]; cbn [string_of_digits contains];
    [reflexivity|].
  rewrite IH, orb_false_r.
  assert (d = 0 \/ d = 1 \/ d = 2 \/ d = 3 \/ d = 4 \/ d = 5 \/ d = 6 \/
          d = 7 \/ d = 8 \/ d = 9) as Hc by lia.
  repeat (destruct Hc as [->|Hc]; [vm_compute; reflexivity|]).
  subst d. vm_compute. reflexivity.
Qed.

(** No rendering of a sequence number contains a forward slash. *)
Lemma contains_format_06 (n : Z) : contains "/"%char (format_06 n) = false.
Proof.
  assert (forall w m, contains "/"%char (zfill w (str_nonneg m)) = false) as H.
  { intros w m. unfold zfill, str_nonneg.
    rewrite contains_append, contains_zeros, contains_digits; [reflexivity|].
    apply Forall_rev, digits_le_range. }
  unfold format_06. destruct (n <? 0); [|apply H].
  cbn [contains]. now rewrite H.
Qed.

Section SessionFacts.

Context `{R : Remote}.

Notation "x <- m ;; k" := (bind m (fun x => k))
  (at level 61, m at next level, right associativity).
Notation "m ;; k" := (bind m (fun _ => k))
  (at level 61, right associativity).

Lemma skipn_length_app {A} (l l' : list A) :
  skipn (List.length l) (l ++ l') = l'.
Proof.
  induction l as [|a l IH]; simpl; [reflexivity | exact IH].
Qed.

Lemma sent_app (tr tr' : list event) : sent (tr ++ tr') = sent tr ++ sent tr'.
Proof.
  induction tr as [|e tr IH]; simpl; [reflexivity|].
  destruct e; simpl; now rewrite ?IH.
Qed.

(** Unfolding a call down to the world it builds. *)
Ltac unfold_call :=
  cbv beta iota zeta delta
    [call returning __enter__ __exit__ init_osc close_osc
     get_project_name get_player_location get_player_rotation
     set_player_location set_player_yaw move_forward move_backward
     turn_left turn_right save_image request_image show take_screenshot
     reset_to_start send_and_wait send_message wait_for_response
     Image_open_ sleep emit get_self set_self bind ret lift float_
     raise get_trace set_img_number set_server set_client
     set_server_thread set_file_path];
  cbn [self trace latch path img_number ip client_port server_port
       message_handler server client server_thread file_path fst snd].

(** Case analysis on whatever blocks the evaluation of a call. *)
Ltac break_call :=
  repeat match goal with
         | |- context [latch_await ?s] => destruct s; cbn
         | |- context [unpack3 ?v] =>
             destruct (unpack3 v) as [[[? ?] ?]| |]; cbn
         | |- context [Image_open ?h ?p] => destruct (Image_open h p); cbn
         | |- context [bound ?t ?h ?p] => destruct (bound t h p); cbn
         end.

(** What a call may change in the session: only [save_image] moves the
    counter, and only by one; the endpoint configuration stays. *)
Lemma call_self (o : op) (w : World) :
  config (self (snd (call o w))) = config (self w) /\
  img_number (self (snd (call o w)))
  = img_number (self w) + (if is_save o then 1 else 0).
Proof.
  destruct o; unfold_call; break_call; cbn [is_save]; split;
    reflexivity || lia.
Qed.

Lemma run_cons (o : op) (ops : list op) (w : World) :
  run (o :: ops) w
  = match fst (call o w) with
    | Hang => snd (call o w)
    | _ => run ops (snd (call o w))
    end.
Proof.
  cbn [run]. destruct (call o w) as [[r|e|] w']; reflexivity.
Qed.

Lemma run_config (ops : list op) :
  forall w, config (self (run ops w)) = config (self w).
Proof.
  induction ops as [|o ops IH]; intros w; [reflexivity|].
  rewrite run_cons. destruct (call_self o w) as [Hc _].
  destruct (fst (call o w)); [rewrite IH| rewrite IH|]; exact Hc.
Qed.

Lemma run_img_number_kept (ops : list op) :
  forallb (fun o => negb (is_save o)) ops = true ->
  forall w, img_number (self (run ops w)) = img_number (self w).
Proof.
  induction ops as [|o ops IH]; intros Hops w; [reflexivity|].
  cbn [forallb] in Hops. apply andb_true_iff in Hops as [Ho Hops].
  rewrite run_cons. destruct (call_self o w) as [_ Hn].
  destruct (is_save o); [discriminate Ho|]. rewrite Z.add_0_r in Hn.
  destruct (fst (call o w)); [rewrite (IH Hops)| rewrite (IH Hops)|]; exact Hn.
Qed.

Lemma save_image_emitted (w : World) :
  emitted save_image w
  = [Send "/save/image"
       (VStr (Path_str (path (self w)) ++ "/"
              ++ format_06 (img_number (self w) + 1))%string);
     Sleep 1.5%float].
Proof.
  unfold emitted. cbn. rewrite <- app_assoc. apply skipn_length_app.
Qed.

Lemma run_repeat_save (k : nat) :
  forall w, path (self (run (repeat SaveImage k) w)) = path (self w) /\
            img_number (self (run (repeat SaveImage k) w))
            = img_number (self w) + Z.of_nat k.
Proof.
  induction k as [|k IH]; intros w.
  - cbn. split; [reflexivity | lia].
  - cbn [repeat]. rewrite run_cons.
    assert (fst (call SaveImage w) = Val RNone) as -> by reflexivity.
    destruct (IH (snd (call SaveImage w))) as [Hp Hn]. rewrite Hp, Hn.
    destruct (call_self SaveImage w) as [Hc Hi].
    apply (f_equal snd) in Hc. cbn [config snd] in Hc.
    rewrite Hc, Hi. cbn [is_save]. split; [reflexivity | lia].
Qed.

Lemma nth_save_image_events (w : World) (n : nat) :
  (1 <= n)%nat ->
  nth_save_image w n
  = [Send "/save/image"
       (VStr (Path_str (path (self w)) ++ "/"
              ++ format_06 (img_number (self w) + Z.of_nat n))%string);
     Sleep 1.5%float].
Proof.
  intros Hn. unfold nth_save_image. rewrite save_image_emitted.
  destruct (run_repeat_save (pred n) w) as [Hp Hk]. rewrite Hp, Hk.
  replace (img_number (self w) + Z.of_nat (pred n) + 1)
    with (img_number (self w) + Z.of_nat n) by lia.
  reflexivity.
Qed.

Lemma save_name_payload (dir : string) (n : Z) :
  save_name (Send "/save/image" (VStr (dir ++ "/" ++ format_06 n)%string))
  = Some (format_06 n).
Proof.
  cbn [save_name]. change ("/save/image" =? "/save/image")%string with true.
  cbv iota.
  change (dir ++ "/" ++ format_06 n)%string
    with (dir ++ String "/"%char (format_06 n))%string.
  now rewrite rpartition_last by apply contains_format_06.
Qed.

(* ------------------------------------------------------------------ *)
(** ** The request/reply operations *)

Lemma send_and_wait_run (address : string) (w : World) :
  send_and_wait address w
  = (match delivered w address with
     | Some v => Val v
     | None => Hang
     end,
     mkWorld (self w) (trace w ++ [Send address (VFloat 0%float)]) None).
Proof.
  unfold_call. unfold delivered.
  destruct (fold_left latch_release _ (latch w)); reflexivity.
Qed.

(** C5.  Each of [get_project_name], [get_player_location] and
    [get_player_rotation] sends exactly one message, to its own address and
    with the dummy payload [0.0]; it does so before it waits, so that the
    message is out even when the call then blocks; it returns the value the
    latch delivers, leaves the latch empty and the session as it was. *)
Theorem request_reply_contract (o : op) (address : string) (w : World) :
  request_address o = Some address ->
  emitted (call o) w = [Send address (VFloat 0%float)] /\
  self (snd (call o w)) = self w /\
  latch (snd (call o w)) = None /\
  fst (call o w) = match delivered w address with
                   | Some v => Val (RValue v)
                   | None => Hang
                   end.
Proof.
  intros Ho.
  assert (call o = returning RValue (send_and_wait address)) as ->.
  { destruct o; try discriminate Ho; injection Ho as <-; reflexivity. }
  unfold emitted, returning, bind. rewrite send_and_wait_run.
  destruct (delivered w address); cbn; rewrite skipn_length_app; auto.
Qed.

(* ------------------------------------------------------------------ *)
(** ** Setting the yaw *)



(* ------------------------------------------------------------------ *)
(** ** Moving and turning *)

Lemma opp_of_positive (x : float) :
  (0 <? x)%float = true -> (- x <? 0)%float = true.
Proof.
  rewrite !ltb_spec, opp_spec.
  destruct (Prim2SF x) as [s|s| |s m e]; cbn; try discriminate;
    destruct s; cbn; auto.
Qed.

(** C3.  For a positive [amount], [move_backward amount] does exactly what
    [move_forward (- amount)] does: one message to [/move/forward] whose
    single float is the negated amount, a negative number. *)
Theorem move_backward_is_forward_negated (amount : float) (w : World) :
  (0 <? amount)%float = true ->
  call (MoveBackward amount) w = call (MoveForward (- amount)%float) w /\
  emitted (call (MoveBackward amount)) w
  = [Send "/move/forward" (VFloat (- amount)%float)] /\
  (- amount <? 0)%float = true.
Proof.
  intros Hpos. split; [reflexivity|]. split.
  - unfold emitted. unfold_call. apply skipn_length_app.
  - now apply opp_of_positive.
Qed.

(** C7, as the code has it.  The turn operations check nothing: whatever
    float a call [turn_left degree] or [turn_right degree] transmits on
    [/turn/left] or [/turn/right] is [degree] itself, of either sign; and
    when the client can encode [degree] (a float in the 32-bit range) that
    one float is transmitted, so that a negative argument goes out
    as it is. *)
Theorem turn_sends_argument_unchanged (degree : float) (w : World) :
  (forall f, In (Send "/turn/left" (VFloat f))
                (emitted (call (TurnLeft degree)) w) -> f = degree) /\
  (forall f, In (Send "/turn/right" (VFloat f))
                (emitted (call (TurnRight degree)) w) -> f = degree) /\
  (packs_float32 degree = true ->
   emitted (call (TurnLeft degree)) w = [Send "/turn/left" (VFloat degree)] /\
   emitted (call (TurnRight degree)) w
   = [Send "/turn/right" (VFloat degree)]).
Proof.
  assert (emitted (call (TurnLeft degree)) w
          = [Send "/turn/left" (VFloat degree)]) as El
    by (unfold emitted; unfold_call; apply skipn_length_app).
  assert (emitted (call (TurnRight degree)) w
          = [Send "/turn/right" (VFloat degree)]) as Er
    by (unfold emitted; unfold_call; apply skipn_length_app).
  rewrite El, Er. repeat split.
  - intros f [E | []]. now injection E.
  - intros f [E | []]. now injection E.
Qed.

(* ------------------------------------------------------------------ *)
(** ** Location round trip *)

Lemma last_location_snoc (h : list message) (v : value) :
  last_location (h ++ [("/set/location", v)]) = Some v.
Proof.
  unfold last_location. rewrite fold_left_app. reflexivity.
Qed.

(** C4.  Against an engine that echoes locations, [set_player_location x y
    z] followed by [get_player_location] returns the list [[x, y, z]] with
    the very floats that were set (equal, hence within any tolerance),
    whatever the session did before. *)
Theorem location_round_trip (w : World) (x y z : float) :
  echoes ->
  fst ((set_player_location x y z ;; get_player_location) w)
  = Val (VList [VFloat x; VFloat y; VFloat z]).
Proof.
  intros Hecho. unfold bind, set_player_location, get_player_location.
  cbn [send_message fst snd]. rewrite send_and_wait_run.
  unfold delivered. cbn [trace latch].
  rewrite sent_app. cbn [sent].
  rewrite (Hecho _ _ (last_location_snoc _ _)). reflexivity.
Qed.

(* ------------------------------------------------------------------ *)
(** ** Saving images: sequence numbers and paths *)

(** C2, as the code has it.  On a fresh session the [n]-th call of
    [save_image] ([n >= 1]) sends one [/save/image] message whose file name
    part is [n] in the [:06] rendering: decimal, zero-padded on the left to
    at least six characters.  Reading the name back gives [n], so the
    numbers of successive calls go up by one; the name has exactly six
    digits as long as [n <= 999999], and more beyond. *)
Theorem save_image_sequence_names (ip_ : string) (cp sp : Z)
    (directory : string) (n : nat) :
  (1 <= n)%nat ->
  let w0 := __init__ ip_ cp sp directory in
  let name := format_06 (Z.of_nat n) in
  nth_save_image w0 n
  = [Send "/save/image"
       (VStr (Path_str (Path_new directory) ++ "/" ++ name)%string);
     Sleep 1.5%float] /\
  map save_name (nth_save_image w0 n) = [Some name; None] /\
  int_of_string name = Some (Z.of_nat n) /\
  (String.length name = 6%nat <-> Z.of_nat n <= 999999).
Proof.
  intros Hn w0 name.
  assert (nth_save_image w0 n
          = [Send "/save/image"
               (VStr (Path_str (Path_new directory) ++ "/" ++ name)%string);
             Sleep 1.5%float]) as E
    by (unfold w0; now rewrite nth_save_image_events).
  split; [exact E|]. split; [|split].
  - rewrite E. cbn [map]. unfold name. now rewrite save_name_payload.
  - apply int_of_string_format_06. lia.
  - apply length_format_06. lia.
Qed.

(* ------------------------------------------------------------------ *)
(** ** What the operations leave alone *)

(** C8.  The endpoint configuration (remote host, send port, receive port,
    working directory) is what the constructor was given, and no public
    operation changes it: not a single call, whether it returns, raises or
    blocks, and hence no sequence of calls. *)
Theorem config_never_mutated (ip_ : string) (cp sp : Z) (directory : string)
    (w : World) (o : op) (ops : list op) :
  config (self (__init__ ip_ cp sp directory))
  = (ip_, cp, sp, Path_new directory) /\
  config (self (snd (call o w))) = config (self w) /\
  config (self (run ops w)) = config (self w).
Proof.
  split; [reflexivity|]. split.
  - apply call_self.
  - apply run_config.
Qed.

(** C10.  A call changes the screenshot counter only when it is
    [save_image], and then by exactly one.  So after a [save_image] and any
    calls that are not [save_image], [request_image] opens (and records in
    [file_path]) the working directory joined with the very sequence number
    that the [save_image] sent. *)
Theorem img_number_only_save_image (w : World) (o : op) (ops : list op) :
  forallb (fun o' => negb (is_save o')) ops = true ->
  img_number (self (snd (call o w)))
  = img_number (self w) + (if is_save o then 1 else 0) /\
  let name := format_06 (img_number (self w) + 1) in
  let w' := run ops (snd (call SaveImage w)) in
  emitted (call SaveImage) w
  = [Send "/save/image" (VStr (Path_str (path (self w)) ++ "/" ++ name)%string);
     Sleep 1.5%float] /\
  emitted (call RequestImage) w' = [Opened (Path_truediv (path (self w)) name)] /\
  file_path (self (snd (call RequestImage w')))
  = Some (Path_truediv (path (self w)) name).
Proof.
  intros Hops. split; [apply call_self|]. intros name w'.
  assert (path (self w') = path (self w) /\
          img_number (self w') = img_number (self w) + 1) as [Hp Hn].
  { unfold w'. rewrite (run_img_number_kept ops Hops).
    pose proof (run_config ops (snd (call SaveImage w))) as Hc.
    apply (f_equal snd) in Hc. cbn [config snd] in Hc. rewrite Hc.
    split; reflexivity. }
  split; [|split].
  - unfold emitted. unfold_call. rewrite <- app_assoc.
    apply skipn_length_app.
  - unfold emitted. unfold_call. break_call;
      rewrite skipn_length_app, Hp, Hn; reflexivity.
  - unfold_call. break_call; rewrite Hp, Hn; reflexivity.
Qed.


(* ------------------------------------------------------------------ *)
(** ** Failures of [set_player_yaw] *)

Lemma set_player_yaw_stops (w : World) (yaw : float) :
  let asked :=
    mkWorld (self w) (trace w ++ [Send "/get/rotation" (VFloat 0%float)])
            None in
  set_player_yaw yaw w
  = match delivered w "/get/rotation" with
    | None => (Hang, asked)
    | Some r =>
        match unpack3 r with
        | Val (a, b, c) =>
            send_message "/set/rotation" (VList [b; a; VFloat yaw]) asked
        | Raise e => (Raise e, asked)
        | Hang => (Hang, asked)
        end
    end.
Proof.
  unfold set_player_yaw, get_player_rotation, bind.
  rewrite send_and_wait_run.
  destruct (delivered w "/get/rotation") as [r|]; [|reflexivity].
  unfold lift. destruct (unpack3 r) as [[[a b] c]|e|]; reflexivity.
Qed.

(** When [set_player_yaw] does not return normally (the reply does not
    unpack into three, or never comes), the request for the rotation is the
    only message it has sent: nothing goes to [/set/rotation], and the
    session is as before. *)
Theorem set_player_yaw_failure_sends_no_rotation (w : World) (yaw : float) :
  fst (call (SetPlayerYaw yaw) w) <> Val RNone ->
  emitted (call (SetPlayerYaw yaw)) w = [Send "/get/rotation" (VFloat 0%float)] /\
  self (snd (call (SetPlayerYaw yaw) w)) = self w.
Proof.
  unfold emitted, call, returning, bind.
  rewrite set_player_yaw_stops.
  destruct (delivered w "/get/rotation") as [r|].
  - destruct (unpack3 r) as [[[a b] c]|e|]; cbn.
    + intros Hfail. now contradiction Hfail.
    + intros _. now rewrite skipn_length_app.
    + intros _. now rewrite skipn_length_app.
  - cbn. intros _. now rewrite skipn_length_app.
Qed.

(** A rotation reply that is a list or a tuple of any length other than
    three makes [set_player_yaw] raise [ValueError]; a reply that is a bare
    number makes it raise [TypeError]. *)
Theorem set_player_yaw_bad_reply (w : World) (r : value) (yaw : float) :
  delivered w "/get/rotation" = Some r ->
  (forall items, (r = VList items \/ r = VTuple items) ->
                 List.length items <> 3%nat ->
                 fst (call (SetPlayerYaw yaw) w) = Raise ValueError) /\
  (is_float r = true \/ (exists n, r = VInt n) ->
   fst (call (SetPlayerYaw yaw) w) = Raise TypeError).
Proof.
  intros Hd. unfold call, returning, bind.
  rewrite set_player_yaw_stops, Hd. split.
  - intros items Hr Hlen.
    assert (unpack3 r = Raise ValueError) as ->; [|reflexivity].
    destruct Hr as [-> | ->];
      destruct items as [|a [|b [|c [|d items]]]]; try reflexivity;
      now contradiction Hlen.
  - intros Hr.
    assert (unpack3 r = Raise TypeError) as ->; [|reflexivity].
    destruct Hr as [Hf | [n ->]]; [|reflexivity].
    destruct r; try discriminate Hf; reflexivity.
Qed.

(* ------------------------------------------------------------------ *)
(** ** The files a session names *)

Lemma save_payloads_app (tr tr' : list event) :
  save_payloads (tr ++ tr') = save_payloads tr ++ save_payloads tr'.
Proof.
  induction tr as [|e tr IH]; cbn [app save_payloads]; [reflexivity|].
  destruct e as [a v| | | | | | | | ]; try exact IH.
  destruct v; try exact IH.
  destruct (a =? "/save/image")%string; [|exact IH].
  cbn [app]. now rewrite IH.
Qed.

Lemma call_save_payloads (o : op) (w : World) :
  save_payloads (trace (snd (call o w)))
  = save_payloads (trace w)
    ++ (if is_save o
        then [(Path_str (path (self w)) ++ "/"
               ++ format_06 (img_number (self w) + 1))%string]
        else []).
Proof.
  destruct o; unfold_call; break_call; cbn [is_save];
    rewrite ?save_payloads_app; cbn [save_payloads];
    rewrite ?app_nil_r; reflexivity.
Qed.

Lemma call_numbered (o : op) (w : World) :
  numbered w -> numbered (snd (call o w)).
Proof.
  intros [Hn Hs]. unfold numbered.
  destruct (call_self o w) as [Hc Hi].
  assert (image_name (self (snd (call o w))) = image_name (self w)) as Hf.
  { unfold image_name. apply (f_equal snd) in Hc. cbn [config snd] in Hc.
    now rewrite Hc. }
  rewrite call_save_payloads, Hi, Hf, Hs.
  destruct (is_save o).
  - split; [lia|].
    replace (Z.to_nat (img_number (self w) + 1))
      with (S (Z.to_nat (img_number (self w)))) by lia.
    rewrite seq_S, map_app. cbn [map]. f_equal. unfold image_name.
    replace (Z.of_nat (1 + Z.to_nat (img_number (self w))))
      with (img_number (self w) + 1) by lia.
    reflexivity.
  - rewrite Z.add_0_r, app_nil_r. split; [assumption | reflexivity].
Qed.

Lemma run_numbered (ops : list op) :
  forall w, numbered w -> numbered (run ops w).
Proof.
  induction ops as [|o ops IH]; intros w Hw; [exact Hw|].
  rewrite run_cons. pose proof (call_numbered o w Hw) as Hw'.
  destruct (fst (call o w)); auto.
Qed.

Lemma fresh_run_payloads (ip_ : string) (cp sp : Z) (directory : string)
    (ops : list op) :
  let w := run ops (__init__ ip_ cp sp directory) in
  0 <= img_number (self w) /\
  save_payloads (trace w)
  = map (fun k => (Path_str (Path_new directory) ++ "/"
                   ++ format_06 (Z.of_nat k))%string)
        (seq 1 (Z.to_nat (img_number (self w)))).
Proof.
  intros w.
  assert (numbered w) as [Hn Hs]
    by (apply run_numbered; split; [cbn; lia | reflexivity]).
  split; [exact Hn|]. rewrite Hs. apply map_ext. intros k.
  unfold image_name.
  pose proof (run_config ops (__init__ ip_ cp sp directory)) as Hc.
  apply (f_equal snd) in Hc. cbn [config snd] in Hc. fold w in Hc.
  now rewrite Hc.
Qed.

(** From a fresh session and through any calls, the counter is the number
    of files the session has asked the engine to write, and these files
    are exactly [dir/000001], [dir/000002], ... up to the counter, once
    each and in that order, [dir] being the working directory. *)
Theorem saved_files_are_numbered (ip_ : string) (cp sp : Z)
    (directory : string) (ops : list op) :
  let w := run ops (__init__ ip_ cp sp directory) in
  img_number (self w) = Z.of_nat (List.length (save_payloads (trace w))) /\
  save_payloads (trace w)
  = map (fun k => (Path_str (Path_new directory) ++ "/"
                   ++ format_06 (Z.of_nat k))%string)
        (seq 1 (List.length (save_payloads (trace w)))).
Proof.
  intros w.
  destruct (fresh_run_payloads ip_ cp sp directory ops) as [Hn Hs].
  fold w in Hn, Hs.
  assert (List.length (save_payloads (trace w))
          = Z.to_nat (img_number (self w))) as Hlen
    by (rewrite Hs at 1; now rewrite length_map, length_seq).
  rewrite Hlen. split; [lia | exact Hs].
Qed.

Lemma append_inj_l (s a b : string) :
  (s ++ a)%string = (s ++ b)%string -> a = b.
Proof.
  induction s as [|c s IH]; cbn; [auto|]. intros [= E]. auto.
Qed.

(** Distinct sequence numbers have distinct renderings. *)
Lemma format_06_inj (a b : Z) :
  0 <= a -> 0 <= b -> format_06 a = format_06 b -> a = b.
Proof.
  intros Ha Hb E. apply (f_equal int_of_string) in E.
  rewrite !int_of_string_format_06 in E by assumption.
  now injection E.
Qed.



Lemma request_image_emitted (w : World) :
  emitted (call RequestImage) w
  = [Opened (Path_truediv (path (self w)) (format_06 (img_number (self w))))].
Proof.
  unfold emitted. unfold_call. break_call; now rewrite skipn_length_app.
Qed.

(** [request_image] on a session that has not saved anything opens
    [dir/000000], a file that no [save_image] of the session ever names:
    the names start at [000001]. *)
Theorem request_image_before_save (ip_ : string) (cp sp : Z)
    (directory : string) (ops : list op) :
  let w0 := __init__ ip_ cp sp directory in
  emitted (call RequestImage) w0
  = [Opened (Path_truediv (Path_new directory) "000000")] /\
  ~ In (Path_str (Path_new directory) ++ "/" ++ "000000")%string
       (save_payloads (trace (run ops w0))).
Proof.
  intros w0. split.
  - now rewrite request_image_emitted.
  - unfold w0.
    destruct (fresh_run_payloads ip_ cp sp directory ops) as [_ ->].
    intros Hin. apply in_map_iff in Hin as [k [E Hk]].
    apply in_seq in Hk. apply append_inj_l, append_inj_l in E.
    apply (format_06_inj (Z.of_nat k) 0) in E; lia.
Qed.

(* ------------------------------------------------------------------ *)
(** ** Reading an image back *)

(** [request_image] records [path / NNNNNN] (the current counter) in
    [file_path] before it opens the file, so the attribute is set even when
    the call fails.  When the file is there, [show] opens it and hands the
    image to [imshow]; when it is not, both methods raise [OSError] and
    nothing is shown. *)
Theorem request_image_and_show (w : World) :
  let file := Path_truediv (path (self w)) (format_06 (img_number (self w))) in
  file_path (self (snd (call RequestImage w))) = Some file /\
  match Image_open (sent (trace w)) file with
  | Some img =>
      fst (call RequestImage w) = Val (RImage img) /\
      fst (call Show w) = Val RNone /\
      emitted (call Show) w = [Opened file; Imshow img]
  | None =>
      fst (call RequestImage w) = Raise OSError /\
      fst (call Show w) = Raise OSError /\
      emitted (call Show) w = [Opened file]
  end.
Proof.
  intros file. unfold emitted, file. unfold_call.
  destruct (Image_open _ _); cbn; rewrite <- ?app_assoc, skipn_length_app;
    auto.
Qed.

(* ------------------------------------------------------------------ *)
(** ** What goes on the wire *)

(** Apart from [send_and_wait], whose address is the caller's, every
    message an operation sends has one of the eleven addresses with the
    payload shape that belongs to it: the dummy [0.0] for the three
    requests and for [/reset], one float for moving and turning, one text
    for [/save/image] and [/screenshot], a list of three floats for
    [/set/location], a list of three items ending in a float for
    [/set/rotation]. *)
Theorem messages_have_wire_shape (o : op) (w : World) :
  is_send_and_wait o = false ->
  Forall (fun e => event_shape e = true) (emitted (call o) w).
Proof.
  intros Ho. destruct o; try discriminate Ho; clear Ho;
    unfold emitted; unfold_call; break_call;
    rewrite <- ?app_assoc; rewrite ?skipn_length_app, ?skipn_all;
    repeat constructor.
Qed.

(* ------------------------------------------------------------------ *)
(** ** The attributes of the session *)

(** Only [init_osc] (the server, the client and the thread), [save_image]
    (the counter) and [request_image], also through [show] (the
    [file_path] attribute), assign anything in the session: every other
    operation leaves all its attributes as they were, whether it returns,
    raises or blocks. *)
Theorem session_frame (o : op) (w : World) :
  mutates o = false -> self (snd (call o w)) = self w.
Proof.
  intros Ho. destruct o; try discriminate Ho; clear Ho.
  all: unfold_call; break_call; reflexivity.
Qed.

(* ------------------------------------------------------------------ *)
(** ** The payload of [save_image] *)


(* ------------------------------------------------------------------ *)
(** ** Leaving the scope of a session *)

Lemma call_trace (o : op) (w : World) :
  exists evs, trace (snd (call o w)) = trace w ++ evs.
Proof.
  destruct o; unfold_call; break_call; rewrite <- ?app_assoc;
    try (eexists; reflexivity).
  all: exists []; now rewrite app_nil_r.
Qed.

Lemma run_trace (ops : list op) :
  forall w, exists evs, trace (run ops w) = trace w ++ evs.
Proof.
  induction ops as [|o ops IH]; intros w.
  - exists []. now rewrite app_nil_r.
  - rewrite run_cons. destruct (call_trace o w) as [evs Ho].
    destruct (fst (call o w)).
    1,2: destruct (IH (snd (call o w))) as [evs' Hr]; exists (evs ++ evs');
         now rewrite Hr, Ho, app_assoc.
    now exists evs.
Qed.

Lemma open_sockets_app (tr tr' : list event) :
  open_sockets (tr ++ tr') = open_sockets tr ++ open_sockets tr'.
Proof.
  induction tr as [|e tr IH]; cbn [app open_sockets]; [reflexivity|].
  destruct e; cbn [app]; now rewrite ?IH.
Qed.

(** C9, as the code has it.  When the scope of a session is left, normally
    or with an exception and whatever the body did, [__exit__] returns
    after [server.shutdown()] and then [server_thread.join()]: the receive
    loop and its thread are stopped and the thread is joined.  But nothing
    closes a socket: the server socket bound by the constructor and the
    socket of the client are both still open afterwards. *)
Theorem exit_joins_thread_but_keeps_sockets (ip_ : string) (cp sp : Z)
    (directory : string) (body : list op) (exc : option exn) :
  let w := run body (__init__ ip_ cp sp directory) in
  let w' := snd (call (Exit exc) w) in
  fst (call (Exit exc) w) = Val RNone /\
  emitted (call (Exit exc)) w = [ServerShutdown; ThreadJoin] /\
  serving (trace w') = false /\
  In (ip_, sp) (open_sockets (trace w')) /\
  In (ip_, cp) (open_sockets (trace w')).
Proof.
  intros w w'.
  assert (trace w' = trace w ++ [ServerShutdown; ThreadJoin]) as Ht
    by (unfold w'; unfold_call; now rewrite <- app_assoc).
  destruct (run_trace body (__init__ ip_ cp sp directory)) as [evs Hw].
  fold w in Hw.
  split; [reflexivity|]. split; [|split; [|split]].
  - unfold emitted. fold w'. rewrite Ht. apply skipn_length_app.
  - rewrite Ht. unfold serving. now rewrite fold_left_app.
  - rewrite Ht, Hw, !open_sockets_app. apply in_or_app. left.
    apply in_or_app. left. cbn. auto.
  - rewrite Ht, Hw, !open_sockets_app. apply in_or_app. left.
    apply in_or_app. left. cbn. auto.
Qed.
End SessionFacts.

(* ================================================================== *)
(** ** Concrete sessions *)

Lemma stub_echoes (project rotation : value) :
  @echoes posix (stub project rotation).
Proof.
  intros h v Hv. cbn [engine_reply stub]. unfold stub_reply.
  cbn [fst]. now rewrite Hv.
Qed.


(** The hundredth call names its file [000100]. *)
Lemma save_image_sequence_names_witness :
  map save_name (nth_save_image demo_silent 100) = [Some "000100"; None].
Proof.
  exact (proj1 (proj2 (save_image_sequence_names (R := silent)
                         "127.0.0.1" 7447 7001 "imgs" 100 ltac:(lia)))).
Defined.

(** C2 as stated fails at the millionth call: the name sent then is
    [1000000], which has seven digits. *)
Lemma save_image_millionth_name_not_six_digits :
  ~ (forall e name,
        In e (nth_save_image demo_silent (Z.to_nat 1000000)) ->
        save_name e = Some name -> String.length name = 6%nat).
Proof.
  intros Hsix.
  rewrite (nth_save_image_events demo_silent (Z.to_nat 1000000)) in Hsix
    by lia.
  rewrite Z2Nat.id in Hsix by lia.
  change (img_number (self demo_silent) + 1000000) with 1000000 in Hsix.
  specialize (Hsix _ (format_06 1000000) (or_introl eq_refl)
                (save_name_payload _ 1000000)).
  vm_compute in Hsix. discriminate Hsix.
Qed.

Lemma move_backward_is_forward_negated_witness :
  call (MoveBackward 2.5%float) demo = call (MoveForward (-2.5)%float) demo /\
  emitted (call (MoveBackward 2.5%float)) demo
  = [Send "/move/forward" (VFloat (-2.5)%float)] /\
  (-2.5 <? 0)%float = true.
Proof.
  apply (move_backward_is_forward_negated 2.5%float demo). reflexivity.
Defined.

(** C7 as stated fails on a negative argument: [turn_left(-5.0)] puts
    [-5.0] on the wire. *)
Lemma turn_left_negative_sent_as_is :
  ~ (forall f,
        In (Send "/turn/left" (VFloat f))
           (emitted (call (TurnLeft (-5)%float)) demo) ->
        (0 <=? f)%float = true).
Proof.
  intros Hnonneg.
  specialize (Hnonneg (-5)%float (or_introl eq_refl)).
  vm_compute in Hnonneg. discriminate Hnonneg.
Qed.

Lemma location_round_trip_witness :
  fst (bind (set_player_location 1.5%float (-2)%float 300%float)
            (fun _ => get_player_location) demo)
  = Val (VList [VFloat 1.5%float; VFloat (-2)%float; VFloat 300%float]).
Proof.
  apply (location_round_trip demo 1.5%float (-2)%float 300%float).
  apply stub_echoes.
Defined.

Lemma request_reply_contract_witness :
  emitted (call GetProjectName) demo = [Send "/get/project" (VFloat 0%float)] /\
  self (snd (call GetProjectName demo)) = self demo /\
  latch (snd (call GetProjectName demo)) = None /\
  fst (call GetProjectName demo) = Val (RValue (VStr "Maze")).
Proof.
  apply (request_reply_contract GetProjectName "/get/project" demo).
  reflexivity.
Defined.

Lemma img_number_only_save_image_witness :
  img_number (self (snd (call ResetToStart demo))) = img_number (self demo) /\
  emitted (call RequestImage)
    (run [MoveForward 1%float; GetPlayerLocation; TakeScreenshot "shot"]
         (snd (call SaveImage demo)))
  = [Opened (PurePosixPath.mk "" ["imgs"; "000001"] : @Path posix)].
Proof.
  pose proof (img_number_only_save_image demo ResetToStart
                [MoveForward 1%float; GetPlayerLocation; TakeScreenshot "shot"]
                eq_refl) as [Hcall [_ [Hopen _]]].
  split.
  - rewrite Hcall. apply Z.add_0_r.
  - exact Hopen.
Defined.


(** A negative argument within range goes out as it is. *)
Lemma turn_sends_argument_unchanged_witness :
  emitted (call (TurnLeft (-5)%float)) demo
  = [Send "/turn/left" (VFloat (-5)%float)] /\
  emitted (call (TurnRight (-5)%float)) demo
  = [Send "/turn/right" (VFloat (-5)%float)].
Proof.
  apply (proj2 (proj2 (turn_sends_argument_unchanged (-5)%float demo))).
  reflexivity.
Defined.

(* ================================================================== *)
(** ** Facts about POSIX paths *)

Lemma split_not_nil (sep : ascii) (s : string) : split sep s <> [].
Proof.
  destruct s as [|c s]; cbn [split]; [discriminate|].
  destruct (Ascii.eqb c sep); [discriminate|].
  destruct (split sep s); discriminate.
Qed.

Lemma split_absent (sep : ascii) (s : string) :
  contains sep s = false -> split sep s = [s].
Proof.
  induction s as [|c s IH]; cbn [split contains]; [reflexivity|].
  intros Hc. apply orb_false_iff in Hc as [Hc Hs].
  now rewrite Hc, (IH Hs).
Qed.

Lemma split_append (sep : ascii) (s t : string) :
  split sep (s ++ String sep t)%string = split sep s ++ split sep t.
Proof.
  induction s as [|c s IH]; cbn [append split app].
  - now rewrite Ascii.eqb_refl.
  - rewrite IH. destruct (Ascii.eqb c sep); [reflexivity|].
    pose proof (split_not_nil sep s) as Hs.
    destruct (split sep s) as [|h l]; [now contradiction Hs | reflexivity].
Qed.

Lemma split_pieces (sep : ascii) (s : string) :
  Forall (fun x => contains sep x = false) (split sep s).
Proof.
  induction s as [|c s IH]; cbn [split].
  - now constructor.
  - destruct (Ascii.eqb c sep) eqn:Hc; [now constructor|].
    destruct (split sep s) as [|h l];
      [constructor; [cbn; now rewrite Hc | constructor]|].
    inversion IH as [|? ? Hh Hl]; subst. constructor; [|exact Hl].
    cbn [contains]. now rewrite Hc, Hh.
Qed.

Lemma split_join (parts : list string) :
  parts <> [] ->
  Forall (fun x => contains "/"%char x = false) parts ->
  split "/"%char (join "/" parts) = parts.
Proof.
  induction parts as [|p rest IH]; intros Hne Hall; [now contradiction Hne|].
  inversion Hall as [|? ? Hp Hrest]; subst.
  destruct rest as [|q rest]; [now apply split_absent|].
  change (join "/" (p :: q :: rest))
    with (p ++ String "/"%char (join "/" (q :: rest)))%string.
  rewrite split_append, (split_absent _ _ Hp), IH; [reflexivity | discriminate
                                                    | exact Hrest].
Qed.

Lemma lstrip_no_slash (s : string) :
  match s with
  | String c _ => Ascii.eqb c "/"%char = false
  | EmptyString => True
  end ->
  lstrip "/"%char s = s.
Proof.
  destruct s as [|c s]; cbn [lstrip]; [reflexivity|]. now intros ->.
Qed.

Lemma splitroot_range (s : string) :
  let r := fst (PurePosixPath.splitroot s) in
  r = "" \/ r = "/" \/ r = "//".
Proof.
  unfold PurePosixPath.splitroot.
  destruct s as [|c s]; [now left|].
  destruct c as [[] [] [] [] [] [] [] []]; cbv zeta; cbn [fst]; auto.
  match goal with |- context [if ?b then _ else _] => destruct b end;
    cbn [fst]; auto.
Qed.

Lemma parse_well_formed (s : string) :
  PurePosixPath.well_formed (PurePosixPath.parse s).
Proof.
  unfold PurePosixPath.well_formed, PurePosixPath.parse.
  pose proof (splitroot_range s) as Hr.
  destruct (PurePosixPath.splitroot s) as [r rel]. cbn in *.
  split; [exact Hr|].
  apply Forall_forall. intros x Hx. apply filter_In in Hx as [Hx Hp].
  split; [exact Hp|].
  pose proof (split_pieces "/"%char rel) as Hall.
  now apply (proj1 (Forall_forall _ _) Hall).
Qed.

Lemma append_assoc' (a b c : string) :
  ((a ++ b) ++ c)%string = (a ++ (b ++ c))%string.
Proof.
  induction a as [|x a IH]; cbn; [reflexivity | now rewrite IH].
Qed.

Lemma splitroot_unrooted (rel : string) :
  match rel with
  | String c _ => Ascii.eqb c "/"%char = false
  | EmptyString => True
  end ->
  PurePosixPath.splitroot rel = ("", rel).
Proof.
  destruct rel as [|c rel]; [reflexivity|].
  destruct c as [[] [] [] [] [] [] [] []]; intros Hc; try reflexivity.
  discriminate Hc.
Qed.

Lemma splitroot_rooted (r rel : string) :
  r = "" \/ r = "/" \/ r = "//" ->
  match rel with
  | String c _ => Ascii.eqb c "/"%char = false
  | EmptyString => True
  end ->
  PurePosixPath.splitroot (r ++ rel)%string = (r, rel).
Proof.
  intros [-> | [-> | ->]] Hrel.
  - now apply splitroot_unrooted.
  - cbn [append PurePosixPath.splitroot lstrip Ascii.eqb Bool.eqb].
    cbv zeta. rewrite (lstrip_no_slash rel Hrel).
    replace (String.length (String "/"%char rel) - String.length rel)%nat
      with 1%nat by (cbn [String.length]; lia).
    reflexivity.
  - cbn [append PurePosixPath.splitroot lstrip Ascii.eqb Bool.eqb].
    cbv zeta. rewrite (lstrip_no_slash rel Hrel).
    replace (String.length (String "/"%char (String "/"%char rel))
             - String.length rel)%nat
      with 2%nat by (cbn [String.length]; lia).
    reflexivity.
Qed.

Lemma is_part_first (x : string) :
  PurePosixPath.is_part x = true -> contains "/"%char x = false ->
  exists c rest, x = String c rest /\ Ascii.eqb c "/"%char = false.
Proof.
  destruct x as [|c rest]; [discriminate|]. intros _ Hc.
  cbn [contains] in Hc. apply orb_false_iff in Hc as [Hc _].
  now exists c, rest.
Qed.

Lemma filter_all {A} (f : A -> bool) (l : list A) :
  Forall (fun x => f x = true) l -> filter f l = l.
Proof.
  induction 1 as [|x l Hx _ IH]; cbn [filter]; [reflexivity|].
  now rewrite Hx, IH.
Qed.

(** Parsing a single component gives that component. *)
Lemma parse_component (name : string) :
  PurePosixPath.is_part name = true -> contains "/"%char name = false ->
  PurePosixPath.parse name = PurePosixPath.mk "" [name].
Proof.
  intros Hp Hc. destruct (is_part_first name Hp Hc) as [c [rest [E Hlead]]].
  unfold PurePosixPath.parse.
  rewrite splitroot_unrooted by (rewrite E; exact Hlead).
  rewrite (split_absent _ _ Hc). cbn [filter]. now rewrite Hp.
Qed.

(** Parsing the text of a path followed by a slash and one more component
    gives the path with that component added, unless the path is a bare
    root (whose text already ends in the slash). *)
Lemma parse_str_child (p : PurePosixPath.t) (name : string) :
  PurePosixPath.well_formed p ->
  PurePosixPath.is_bare_root p = false ->
  PurePosixPath.is_part name = true -> contains "/"%char name = false ->
  PurePosixPath.parse (PurePosixPath.str p ++ String "/"%char name)%string
  = PurePosixPath.mk (PurePosixPath.root p) (PurePosixPath.parts p ++ [name]).
Proof.
  intros [Hroot Hparts] Hbare Hp Hc.
  destruct p as [r parts]. cbn [PurePosixPath.root PurePosixPath.parts] in *.
  unfold PurePosixPath.is_bare_root in Hbare.
  cbn [PurePosixPath.root PurePosixPath.parts] in Hbare.
  destruct parts as [|x rest].
  - rewrite andb_true_r in Hbare. apply negb_false_iff in Hbare.
    apply String.eqb_eq in Hbare. subst r.
    unfold PurePosixPath.parse.
    change (PurePosixPath.str (PurePosixPath.mk "" []) ++ String "/"%char name)%string
      with ("." ++ String "/"%char name)%string.
    rewrite splitroot_unrooted by reflexivity.
    rewrite split_append, filter_app, (split_absent _ _ Hc).
    cbn [split filter PurePosixPath.is_part app]. cbn. now rewrite Hp.
  - inversion Hparts as [|? ? [Hx Hxc] Hrest]; subst.
    destruct (is_part_first x Hx Hxc) as [c [x' [E Hlead]]].
    assert (PurePosixPath.str (PurePosixPath.mk r (x :: rest))
            = (r ++ join "/" (x :: rest))%string) as ->.
    { unfold PurePosixPath.str.
      cbn [PurePosixPath.root PurePosixPath.parts].
      destruct (r ++ join "/" (x :: rest))%string eqn:Es; [|reflexivity].
      apply (f_equal String.length) in Es.
      rewrite length_append, E in Es.
      destruct rest; cbn in Es; lia. }
    unfold PurePosixPath.parse. rewrite append_assoc'.
    rewrite splitroot_rooted; [|exact Hroot|].
    + rewrite split_append, split_join, (split_absent _ _ Hc);
        [|discriminate|].
      * f_equal. apply filter_all. apply Forall_app. split.
        -- constructor; [exact Hx|].
           eapply Forall_impl; [|exact Hrest]. now intros a [Ha _].
        -- now repeat constructor.
      * constructor; [exact Hxc|].
        eapply Forall_impl; [|exact Hrest]. now intros a [_ Ha].
    + rewrite E. destruct rest; exact Hlead.
Qed.

Lemma length_format_06_min (n : Z) : (6 <= String.length (format_06 n))%nat.
Proof.
  unfold format_06. destruct (n <? 0); cbn [String.length];
    rewrite length_zfill; lia.
Qed.

Lemma is_part_format_06 (n : Z) : PurePosixPath.is_part (format_06 n) = true.
Proof.
  pose proof (length_format_06_min n) as Hlen.
  unfold PurePosixPath.is_part.
  destruct (String.eqb_spec (format_06 n) "") as [E|_];
    [rewrite E in Hlen; cbn in Hlen; lia|].
  destruct (String.eqb_spec (format_06 n) ".") as [E|_];
    [rewrite E in Hlen; cbn in Hlen; lia|].
  reflexivity.
Qed.

(** On a POSIX host, the text that [save_image] builds with an f-string and
    the path that [request_image] builds with [/] are the same path, for
    every working directory that is not a bare root. *)
Lemma posix_name_is_child (directory : string) (n : Z) :
  PurePosixPath.is_bare_root (PurePosixPath.parse directory) = false ->
  PurePosixPath.parse
    (PurePosixPath.str (PurePosixPath.parse directory) ++ "/" ++ format_06 n)%string
  = PurePosixPath.truediv (PurePosixPath.parse directory) (format_06 n).
Proof.
  intros Hbare.
  change ("/" ++ format_06 n)%string with (String "/"%char (format_06 n)).
  rewrite parse_str_child;
    [|apply parse_well_formed|exact Hbare|apply is_part_format_06
     |apply contains_format_06].
  unfold PurePosixPath.truediv.
  now rewrite (parse_component (format_06 n))
    by (apply is_part_format_06 || apply contains_format_06).
Qed.

(** On a POSIX host and for a working directory other than a bare root,
    [request_image] opens the very file the last [save_image] named: after
    any calls, a [save_image] and then calls that do not save,
    [request_image] opens the path that the payload of that [save_image]
    denotes. *)
Theorem posix_request_image_opens_saved_file (R : @Remote posix)
    (ip_ : string) (cp sp : Z) (directory : string) (before after : list op) :
  PurePosixPath.is_bare_root (PurePosixPath.parse directory) = false ->
  forallb (fun o => negb (is_save o)) after = true ->
  let w := run before (__init__ ip_ cp sp directory) in
  exists payload,
    emitted (call SaveImage) w
    = [Send "/save/image" (VStr payload); Sleep 1.5%float] /\
    emitted (call RequestImage) (run after (snd (call SaveImage w)))
    = [Opened (Path_new payload)].
Proof.
  intros Hbare Hafter w.
  assert (path (self w) = Path_new directory) as Hw.
  { pose proof (run_config before (__init__ ip_ cp sp directory)) as Hc.
    apply (f_equal snd) in Hc. exact Hc. }
  exists (Path_str (Path_new directory) ++ "/"
          ++ format_06 (img_number (self w) + 1))%string.
  split.
  - change (call SaveImage) with (returning (fun _ : unit => RNone) save_image).
    pose proof (save_image_emitted w) as E. rewrite Hw in E.
    unfold emitted in *. exact E.
  - rewrite request_image_emitted.
    rewrite (run_img_number_kept after Hafter).
    pose proof (run_config after (snd (call SaveImage w))) as Hc.
    apply (f_equal snd) in Hc. cbn [config snd] in Hc. rewrite Hc.
    destruct (call_self SaveImage w) as [Hc' Hi].
    apply (f_equal snd) in Hc'. cbn [config snd] in Hc'.
    rewrite Hc', Hi, Hw. cbn [is_save].
    exact (f_equal (fun p => [Opened p])
             (eq_sym (posix_name_is_child directory _ Hbare))).
Qed.

(* ================================================================== *)
(** ** Further facts on concrete sessions *)

Lemma set_player_yaw_failure_sends_no_rotation_witness :
  emitted (call (SetPlayerYaw 45%float)) demo_silent
  = [Send "/get/rotation" (VFloat 0%float)] /\
  self (snd (call (SetPlayerYaw 45%float) demo_silent)) = self demo_silent.
Proof.
  apply (set_player_yaw_failure_sends_no_rotation demo_silent 45%float).
  vm_compute. discriminate.
Defined.

Lemma set_player_yaw_bad_reply_witness :
  fst (call (SetPlayerYaw 45%float) demo_short) = Raise ValueError.
Proof.
  apply (proj1 (set_player_yaw_bad_reply demo_short
                  (VTuple [VFloat 10%float; VFloat 20%float]) 45%float
                  eq_refl)
               [VFloat 10%float; VFloat 20%float]).
  - right. reflexivity.
  - cbn. lia.
Defined.

Lemma messages_have_wire_shape_witness :
  Forall (fun e => event_shape e = true)
         (emitted (call (SetPlayerYaw 45%float)) demo).
Proof.
  apply (messages_have_wire_shape (SetPlayerYaw 45%float) demo).
  reflexivity.
Defined.

Lemma session_frame_witness :
  self (snd (call (SetPlayerYaw 45%float) demo_short)) = self demo_short.
Proof.
  apply (session_frame (SetPlayerYaw 45%float) demo_short). reflexivity.
Defined.

Lemma posix_request_image_opens_saved_file_witness :
  exists payload,
    emitted (call SaveImage) (run [MoveForward 1%float] demo)
    = [Send "/save/image" (VStr payload); Sleep 1.5%float] /\
    emitted (call RequestImage)
      (run [GetPlayerLocation]
           (snd (call SaveImage (run [MoveForward 1%float] demo))))
    = [Opened (Path_new payload)].
Proof.
  apply (posix_request_image_opens_saved_file demo_engine
           "127.0.0.1" 7447 7001 "imgs" [MoveForward 1%float]
           [GetPlayerLocation]); reflexivity.
Defined.

(** The exception of the last theorem is real: for the working directory
    ["/"] the name sent is ["//000001"], whose root is ["//"], while
    [request_image] opens ["/000001"]. *)
Example posix_bare_root_differs :
  PurePosixPath.parse
    (PurePosixPath.str (PurePosixPath.parse "/") ++ "/" ++ format_06 1)%string
  <> PurePosixPath.truediv (PurePosixPath.parse "/") (format_06 1).
Proof.
  vm_compute. discriminate.
Qed.
